(** * Appointment conflict validation (careaway-server)

    Shallow embedding of
    [services/appointment_scheduling_service/app/api/appointment-validation.js]
    and the properties of its conflict-validation engine.

    Instants are millisecond time stamps as [moment(x).valueOf()] yields
    them; a stamp beyond the range of a JavaScript Date makes an invalid
    date, which moment compares as false with everything.  Identities are
    the user names compared by [===]. *)

From Stdlib Require Import ZArith Bool List String Lia Permutation.
Import ListNotations.
Open Scope string_scope.
Open Scope list_scope.
Open Scope Z_scope.

(* ------------------------------------------------------------------ *)
(** ** Data model *)

Definition identity := string.
Definition instant := Z.

Record Appointment : Type := mkAppointment {
  initiator : identity;
  appointee : identity;
  startTime : instant;
  endTime : instant
}.

(** The argument [appointments] of [noConflicts_Modify]:
    [{original, modified}]. *)
Record Modification : Type := mkModification {
  original : Appointment;
  modified : Appointment
}.

(** The comparisons of the moment library the source calls without a unit
    argument: they compare the two [valueOf()] time stamps, and answer false
    as soon as one of the two moments is an invalid date.  A moment is
    represented by the stamp it was built from; it is valid when the stamp
    is one a Date can hold, at most 8.64e15 milliseconds from the epoch. *)
Module Moment.
Definition max_stamp : Z := 8640000000000000.
Definition moment (t : instant) : Z := t.
Definition isValid (m : Z) : bool := (- max_stamp <=? m) && (m <=? max_stamp).
Definition isBefore (m other : Z) : bool :=
  isValid m && isValid other && (m <? other).
Definition isAfter (m other : Z) : bool :=
  isValid m && isValid other && (other <? m).
Definition isSame (m other : Z) : bool :=
  isValid m && isValid other && (m =? other).
End Moment.

(** A time span is well formed when it starts before it ends. *)
Definition well_formed (a : Appointment) : Prop := startTime a < endTime a.

(** A stamp that makes a valid date, and an appointment whose two stamps
    do. *)
Definition valid_instant (t : instant) : Prop :=
  - 8640000000000000 <= t <= 8640000000000000.

Definition valid_span (a : Appointment) : Prop :=
  valid_instant (startTime a) /\ valid_instant (endTime a).

(* ------------------------------------------------------------------ *)
(** ** Identity and overlap predicates *)

Definition isSame (firstAppointment secondAppointment : Appointment) : bool :=
  let sameInitiator :=
    String.eqb (initiator firstAppointment) (initiator secondAppointment) in
  let sameAppointee :=
    String.eqb (appointee firstAppointment) (appointee secondAppointment) in
  let sameTime :=
    Moment.isSame (Moment.moment (startTime firstAppointment))
                  (startTime secondAppointment) in
  sameAppointee && sameInitiator && sameTime.

Definition timesConflict (firstAppointment secondAppointment : Appointment) : bool :=
  let firstStartTime := Moment.moment (startTime firstAppointment) in
  let firstEndTime := Moment.moment (endTime firstAppointment) in
  let secondStartTime := Moment.moment (startTime secondAppointment) in
  let secondEndTime := Moment.moment (endTime secondAppointment) in
  let firstTest := Moment.isBefore firstStartTime secondEndTime
                   && Moment.isAfter firstEndTime secondEndTime in
  let secondTest := Moment.isBefore firstStartTime secondStartTime
                    && Moment.isAfter firstEndTime secondStartTime in
  let thirdTest := Moment.isSame firstStartTime secondStartTime in
  let fourthTest := Moment.isSame firstEndTime secondEndTime in
  firstTest || secondTest || thirdTest || fourthTest.

(* ------------------------------------------------------------------ *)
(** ** The scanners

    Both scanners are a [for (let i in appointmentList)] loop over a local
    [valid] that leaves the loop by [break]. *)

Inductive ctl : Type := Continue | Break.

Fixpoint for_in {A S : Type} (l : list A) (body : A -> S -> S * ctl) (s : S) : S :=
  match l with
  | [] => s
  | x :: rest =>
      match body x s with
      | (s', Break) => s'
      | (s', Continue) => for_in rest body s'
      end
  end.

Definition noConflicts_Create (appointment : Appointment)
    (appointmentList : list Appointment) : bool :=
  for_in appointmentList
    (fun e valid =>
       if timesConflict e appointment then (false, Break) else (valid, Continue))
    true.

Definition noConflicts_Modify (appointments : Modification)
    (appointmentList : list Appointment) : bool :=
  let newAppointment := modified appointments in
  let original := original appointments in
  for_in appointmentList
    (fun e valid =>
       let match_ := isSame e original in
       if negb match_ then
         if timesConflict e newAppointment then (false, Break)
         else (valid, Continue)
       else (valid, Continue))
    true.

(* ------------------------------------------------------------------ *)
(** ** Promises, the console and the repository

    A promise is modelled by its eventual state.  [Pending] is a promise
    that is never settled: nobody calls its [fulfill] or [reject]. *)

Definition error := string.

Inductive promise (A : Type) : Type :=
| Fulfilled (a : A)
| Rejected (e : error)
| Pending.
Arguments Fulfilled {A} a.
Arguments Rejected {A} e.
Arguments Pending {A}.

(** What a run leaves behind: the lines written by [console.log] and the
    parties whose appointments were requested from the repository. *)
Record world : Type := mkWorld {
  console : list string;
  fetches : list identity
}.

Definition State (S A : Type) : Type := S -> A * S.

Definition ret {S A : Type} (a : A) : State S A := fun s => (a, s).

Definition bind {S A B : Type} (m : State S A) (k : A -> State S B) : State S B :=
  fun s => let (a, s') := m s in k a s'.

Declare Scope js_scope.
Delimit Scope js_scope with js.
Notation "x <- m ;; k" := (bind m (fun x => k))
  (at level 61, m at next level, right associativity) : js_scope.
Notation "m ;;; k" := (bind m (fun _ => k))
  (at level 61, right associativity) : js_scope.
Open Scope js_scope.

(** Code that only touches the world, and code that runs inside the
    executor of [new Promise((fulfill, reject) => ...)]: it also sees the
    state of the promise under construction. *)
Definition IO : Type -> Type := State world.
Definition Exec (R : Type) : Type -> Type := State (promise R * world).

Definition liftIO {R A : Type} (m : IO A) : Exec R A :=
  fun s => let (a, w') := m (snd s) in (a, (fst s, w')).

Definition console_log (line : string) : IO unit :=
  fun w => (tt, mkWorld (console w ++ [line]) (fetches w)).

(** Settling a promise that is already settled does nothing. *)
Definition fulfill {R : Type} (value : R) : Exec R unit :=
  fun s => (tt, (match fst s with Pending => Fulfilled value | p => p end, snd s)).

Definition reject {R : Type} (e : error) : Exec R unit :=
  fun s => (tt, (match fst s with Pending => Rejected e | p => p end, snd s)).

Definition new_Promise {R : Type} (executor : Exec R unit) : IO (promise R) :=
  fun w => let (_, s) := executor (Pending, w) in s.

(** [p.then(onFulfilled)]: the handler runs on a fulfilled [p]; a rejection
    passes through to the promise that [then] returns. *)
Definition then_ {S A B : Type} (p : promise A) (onFulfilled : A -> State S B)
    : State S (promise B) :=
  match p with
  | Fulfilled a => b <- onFulfilled a ;; ret (Fulfilled b)
  | Rejected e => ret (Rejected e)
  | Pending => ret Pending
  end.

(** [p.catch(onRejected)]. *)
Definition catch_ {S A : Type} (p : promise A) (onRejected : error -> State S A)
    : State S (promise A) :=
  match p with
  | Rejected e => a <- onRejected e ;; ret (Fulfilled a)
  | _ => ret p
  end.

(** The document a fetch resolves to; [None] is JavaScript's [null]. *)
Record AppointmentRecord : Type := mkRecord {
  appointments : list Appointment
}.

(** The appointment repository is a collaborator outside this file; it
    enters [validate] as the argument [repo]. *)
Record Repository : Type := mkRepository {
  GetAppointment : identity -> promise (option AppointmentRecord)
}.

Definition call_GetAppointment (repo : Repository) (party : identity)
    : IO (promise (option AppointmentRecord)) :=
  fun w => (GetAppointment repo party, mkWorld (console w) (fetches w ++ [party])).

Record Verdict : Type := mkVerdict {
  success : bool;
  reason : string
}.

Definition initiator_conflict : string :=
  "Appointment time conflicts with your existing appointment.".
Definition appointee_conflict : string :=
  "Appointment time conflicts with the appointee's existing appointment.".

(** [result === null || noTimeConflicts(appointment, result.appointments)] *)
Definition null_or_noTimeConflicts {C : Type}
    (noTimeConflicts : C -> list Appointment -> bool) (appointment : C)
    (result : option AppointmentRecord) : bool :=
  match result with
  | None => true
  | Some r => noTimeConflicts appointment (appointments r)
  end.

(* ------------------------------------------------------------------ *)
(** ** The orchestrator *)

Definition validate {C : Type} (repo : Repository) (appointment : C)
    (initiator appointee : identity)
    (noTimeConflicts : C -> list Appointment -> bool) : IO (promise Verdict) :=
  new_Promise (
    initiatorFetch <- liftIO (call_GetAppointment repo initiator) ;;
    chained <- then_ initiatorFetch (fun initiatorResult =>
      if null_or_noTimeConflicts noTimeConflicts appointment initiatorResult then
        appointeeFetch <- liftIO (call_GetAppointment repo appointee) ;;
        then_ appointeeFetch (fun appointeeResult =>
          if null_or_noTimeConflicts noTimeConflicts appointment appointeeResult then
            fulfill (mkVerdict true "")
          else
            liftIO (console_log "Error appointment time unavailable for appointee.") ;;;
            fulfill (mkVerdict false appointee_conflict)) ;;;
        ret tt
      else
        liftIO (console_log "Error appointment time unavailable for initiator.") ;;;
        fulfill (mkVerdict false initiator_conflict)) ;;
    catch_ chained (fun error => liftIO (console_log error)) ;;;
    ret tt).

Definition validate_modification (repo : Repository) (appointments : Modification)
    (initiator appointee : identity) : IO (promise Verdict) :=
  new_Promise (
    inner <- liftIO (validate repo appointments initiator appointee noConflicts_Modify) ;;
    then_ inner (fun result => fulfill result) ;;;
    ret tt).

Definition validate_creation (repo : Repository) (appointment : Appointment)
    (initiator appointee : identity) : IO (promise Verdict) :=
  new_Promise (
    inner <- liftIO (validate repo appointment initiator appointee noConflicts_Create) ;;
    then_ inner (fun result => fulfill result) ;;;
    ret tt).

(* ------------------------------------------------------------------ *)
(** ** Vocabulary of the statements *)

(** What [validate] leaves in the world after requesting [parties]. *)
Definition after (w : world) (lines : list string) (parties : list identity) : world :=
  mkWorld (console w ++ lines) (fetches w ++ parties).

(** What reaches the caller of an entry point from the promise of
    [validate]: its verdict, and nothing else. *)
Definition handed_on (p : promise Verdict) : promise Verdict :=
  match p with
  | Fulfilled v => Fulfilled v
  | _ => Pending
  end.

(** A fetch that the validation performs rejects: the initiator's, or the
    appointee's once the initiator's schedule has passed the scanner. *)
Definition fetch_fails {C : Type} (repo : Repository)
    (scan : C -> list Appointment -> bool) (c : C) (i a : identity) : Prop :=
  (exists e, GetAppointment repo i = Rejected e)
  \/ (exists ri e,
        GetAppointment repo i = Fulfilled ri
        /\ null_or_noTimeConflicts scan c ri = true
        /\ GetAppointment repo a = Rejected e).

(** The caller of a promise receives an error when the promise is
    rejected. *)
Definition propagates_error {A : Type} (p : promise A) : Prop :=
  exists e, p = Rejected e.

(** The invariant of a verdict: the reason is empty exactly on success, and
    a failure names the party whose schedule conflicts. *)
Definition reason_matches_success (v : Verdict) : Prop :=
  (reason v = "" <-> success v = true)
  /\ (success v = false ->
      reason v = initiator_conflict \/ reason v = appointee_conflict).

(* ------------------------------------------------------------------ *)
(** ** Sample data *)

Definition appt (i a : identity) (s e : instant) : Appointment :=
  mkAppointment i a s e.

Definition quiet : world := mkWorld [] [].

(** A repository over a table of parties; a party that is not in the table
    has no record ([null]). *)
Fixpoint lookup_party (table : list (identity * promise (option AppointmentRecord)))
    (party : identity) : promise (option AppointmentRecord) :=
  match table with
  | [] => Fulfilled None
  | (who, answer) :: rest =>
      if String.eqb who party then answer else lookup_party rest party
  end.

Definition table_repo (table : list (identity * promise (option AppointmentRecord)))
    : Repository :=
  mkRepository (lookup_party table).

(** The repository of a party whose answer is replaced. *)
Definition with_answer (repo : Repository) (party : identity)
    (answer : promise (option AppointmentRecord)) : Repository :=
  mkRepository (fun who =>
    if String.eqb who party then answer else GetAppointment repo who).

Definition empty_record : promise (option AppointmentRecord) :=
  Fulfilled (Some (mkRecord [])).

(** The store fails for U1. *)
Definition storage_down : Repository :=
  table_repo [("U1", Rejected "storage error")].

(** U1 is booked from 10:00 to 11:00 and U2 from 10:15 to 11:15 (minutes of
    the day). *)
Definition both_booked : Repository :=
  table_repo [("U1", Fulfilled (Some (mkRecord [appt "U1" "U3" 600 660])));
              ("U2", Fulfilled (Some (mkRecord [appt "U4" "U2" 615 675])))].

Definition nobody_on_record : Repository := table_repo [].

(* ------------------------------------------------------------------ *)
(** ** Spans as intervals *)

(** The two spans share more than a boundary instant. *)
Definition overlaps (a b : Appointment) : Prop :=
  startTime a < endTime b /\ startTime b < endTime a.

(** [a] lies strictly inside [b]. *)
Definition strictly_inside (a b : Appointment) : Prop :=
  startTime b < startTime a /\ endTime a < endTime b.

(** The appointments of [one] and [other] have the same time span. *)
Definition same_span (one other : Appointment) : Prop :=
  startTime one = startTime other /\ endTime one = endTime other.

(** U1's only appointment, 09:00 to 10:00 with U2, and its move by half an
    hour. *)
Definition nine_to_ten : Appointment := appt "U1" "U2" 540 600.
Definition moved_half_hour : Modification :=
  mkModification nine_to_ten (appt "U1" "U2" 570 630).

(* ------------------------------------------------------------------ *)
(** ** The treatment plan repository: its two list queries

    [TreatmentPlanAccess.prototype.GetPatientTreatment] and
    [GetTreatmentsDiagnosis].  The MongoDB driver is a collaborator: what it
    hands to the callback, [(err, result)], is the answer of the collection.
    Treatment plans are documents the repository never looks into. *)

Inductive Query : Type :=
| ByUsername (username : string)
| ByRoleCodeDiagnosis (role medicalcode diagnosis : string).

Section TreatmentPlanAccess.
Variable Treatment : Type.

Record AccountType : Type := mkAccountType {
  treatment : list Treatment
}.

Record UserDoc : Type := mkUserDoc {
  accountType : AccountType
}.

Record Collection : Type := mkCollection {
  findOne : Query -> option error * option UserDoc;
  find_toArray : Query -> option error * list UserDoc
}.

(** [{'treatments' : treatments}] and [{"Treatments" : Treatments}] *)
Record TreatmentList : Type := mkTreatmentList {
  treatments : list Treatment
}.

Record DiagnosisTreatments : Type := mkDiagnosisTreatments {
  Treatments : list (list Treatment)
}.

(** [for (var i = first; i < first + steps; i++) body] *)
Fixpoint for_count {S : Type} (steps : nat) (i : nat) (body : nat -> S -> S) (s : S) : S :=
  match steps with
  | O => s
  | Datatypes.S k => for_count k (Datatypes.S i) body (body i s)
  end.

Definition GetPatientTreatment (db : string -> Collection) (patient : string)
    : IO (promise (option TreatmentList)) :=
  let collection := db "Users" in
  new_Promise (
    let (err, result) := findOne collection (ByUsername patient) in
    match err with
    | Some e =>
        liftIO (console_log "Failed to get query") ;;;
        reject e
    | None =>
        liftIO (console_log "Successfully got query") ;;;
        match result with
        | Some r =>
            let treatments := treatment (accountType r) in
            let treatmentList := mkTreatmentList treatments in
            fulfill (Some treatmentList)
        | None => fulfill None
        end
    end).

(** [Treatments.push(docs[i].accountType.treatment)]; the loop keeps [i]
    below [docs.length], so [docs[i]] is always there. *)
Definition push_treatment (docs : list UserDoc) (i : nat)
    (collected : list (list Treatment)) : list (list Treatment) :=
  match nth_error docs i with
  | Some doc => collected ++ [treatment (accountType doc)]
  | None => collected
  end.

Definition GetTreatmentsDiagnosis (db : string -> Collection)
    (MPCode Diagnosis : string) : IO (promise DiagnosisTreatments) :=
  let collection := db "Users" in
  new_Promise (
    let (err, docs) :=
      find_toArray collection (ByRoleCodeDiagnosis "patient" MPCode Diagnosis) in
    match err with
    | Some e =>
        liftIO (console_log "Failed to get query") ;;;
        reject e
    | None =>
        liftIO (console_log "Successfully got query") ;;;
        let Treatments := for_count (List.length docs) 0 (push_treatment docs) [] in
        let results := mkDiagnosisTreatments Treatments in
        fulfill results
    end).

End TreatmentPlanAccess.

Arguments mkAccountType {Treatment} _.
Arguments treatment {Treatment} _.
Arguments mkUserDoc {Treatment} _.
Arguments accountType {Treatment} _.
Arguments mkCollection {Treatment} _ _.
Arguments findOne {Treatment} _ _.
Arguments find_toArray {Treatment} _ _.
Arguments mkTreatmentList {Treatment} _.
Arguments treatments {Treatment} _.
Arguments mkDiagnosisTreatments {Treatment} _.
Arguments Treatments {Treatment} _.
Arguments push_treatment {Treatment} _ _ _.
Arguments GetPatientTreatment {Treatment} _ _.
Arguments GetTreatmentsDiagnosis {Treatment} _ _ _.

(** A store with the Users collection only: two patients of code MP1 with
    asthma, the first with two plans and the second with none. *)
Definition two_patients : string -> Collection string :=
  fun _ =>
    mkCollection
      (fun q =>
         match q with
         | ByUsername "ann" => (None, Some (mkUserDoc (mkAccountType ["rest"; "inhaler"])))
         | _ => (None, None)
         end)
      (fun q =>
         match q with
         | ByRoleCodeDiagnosis "patient" "MP1" "asthma" =>
             (None, [mkUserDoc (mkAccountType ["rest"; "inhaler"]);
                     mkUserDoc (mkAccountType [])])
         | _ => (None, [])
         end).

(** A store whose driver reports an error on every query. *)
Definition users_unreachable : string -> Collection string :=
  fun _ => mkCollection (fun _ => (Some "connection lost", None))
                        (fun _ => (Some "connection lost", [])).

(** U1 and U2 both have [nine_to_ten] on record and nothing else. *)
Definition only_nine_to_ten : Repository :=
  table_repo [("U1", Fulfilled (Some (mkRecord [nine_to_ten])));
              ("U2", Fulfilled (Some (mkRecord [nine_to_ten])))].

(* ------------------------------------------------------------------ *)
(** ** Facts about the loop and the predicates *)

Section Scan.
Context {A : Type}.
Variable body : A -> bool -> bool * ctl.
Variable test : A -> bool.
Hypothesis body_test :
  forall e v, body e v = if test e then (false, Break) else (v, Continue).

Lemma for_in_scan (l : list A) (v : bool) :
  for_in l body v = if existsb test l then false else v.
Proof.
  revert v; induction l as [|x rest IH]; intros v; simpl.
  - reflexivity.
  - rewrite body_test. destruct (test x); simpl; [reflexivity | apply IH].
Qed.
End Scan.

Lemma noConflicts_Create_existsb (c : Appointment) (l : list Appointment) :
  noConflicts_Create c l = negb (existsb (fun e => timesConflict e c) l).
Proof.
  unfold noConflicts_Create.
  rewrite (for_in_scan _ (fun e => timesConflict e c)) by reflexivity.
  now destruct (existsb _ l).
Qed.

Lemma noConflicts_Modify_existsb (p : Modification) (l : list Appointment) :
  noConflicts_Modify p l =
  negb (existsb (fun e => negb (isSame e (original p)) && timesConflict e (modified p)) l).
Proof.
  unfold noConflicts_Modify.
  rewrite (for_in_scan _
             (fun e => negb (isSame e (original p)) && timesConflict e (modified p))).
  - now destruct (existsb _ l).
  - intros e v. destruct (isSame e (original p)); simpl; [reflexivity|].
    now destruct (timesConflict e (modified p)).
Qed.

Lemma negb_existsb_true {A : Type} (f : A -> bool) (l : list A) :
  negb (existsb f l) = true <-> forall e, In e l -> f e = false.
Proof.
  rewrite negb_true_iff. split.
  - intros H e He. destruct (f e) eqn:E; [|reflexivity].
    assert (existsb f l = true) by (apply existsb_exists; eauto). congruence.
  - intros H. destruct (existsb f l) eqn:E; [|reflexivity].
    apply existsb_exists in E. destruct E as (e & He & Hf).
    rewrite (H e He) in Hf. discriminate.
Qed.

Lemma isValid_true_iff (t : instant) :
  Moment.isValid t = true <-> valid_instant t.
Proof.
  unfold Moment.isValid, Moment.max_stamp, valid_instant.
  rewrite andb_true_iff, !Z.leb_le. tauto.
Qed.

Ltac moment_facts :=
  unfold timesConflict, isSame, Moment.isBefore, Moment.isAfter, Moment.isSame,
         Moment.moment;
  rewrite ?orb_true_iff, ?andb_true_iff, ?isValid_true_iff, ?Z.ltb_lt, ?Z.eqb_eq,
          ?String.eqb_eq.

(** A conflict is only ever reported on one of the four conditions. *)
Lemma timesConflict_true_only_if (a b : Appointment) :
  timesConflict a b = true ->
  (startTime a < endTime b /\ endTime b < endTime a)
  \/ (startTime a < startTime b /\ startTime b < endTime a)
  \/ startTime a = startTime b
  \/ endTime a = endTime b.
Proof. moment_facts. tauto. Qed.

Lemma timesConflict_true_iff (a b : Appointment) :
  valid_span a -> valid_span b ->
  (timesConflict a b = true <->
   (startTime a < endTime b /\ endTime b < endTime a)
   \/ (startTime a < startTime b /\ startTime b < endTime a)
   \/ startTime a = startTime b
   \/ endTime a = endTime b).
Proof. intros [Has Hae] [Hbs Hbe]. moment_facts. tauto. Qed.

Lemma timesConflict_false_if (a b : Appointment) :
  ~ (startTime a < endTime b /\ endTime b < endTime a) ->
  ~ (startTime a < startTime b /\ startTime b < endTime a) ->
  startTime a <> startTime b ->
  endTime a <> endTime b ->
  timesConflict a b = false.
Proof.
  intros H1 H2 H3 H4. apply not_true_iff_false. intros H.
  apply timesConflict_true_only_if in H. tauto.
Qed.

Lemma isSame_true_only_if (x y : Appointment) :
  isSame x y = true ->
  initiator x = initiator y /\ appointee x = appointee y /\ startTime x = startTime y.
Proof. moment_facts. tauto. Qed.

Lemma isSame_true_iff (x y : Appointment) :
  valid_instant (startTime x) -> valid_instant (startTime y) ->
  (isSame x y = true <->
   initiator x = initiator y /\ appointee x = appointee y /\ startTime x = startTime y).
Proof. intros Hx Hy. moment_facts. tauto. Qed.

Lemma isSame_refl (x : Appointment) :
  valid_instant (startTime x) -> isSame x x = true.
Proof. intros Hx. apply isSame_true_iff; auto. Qed.

Lemma isSame_sym (x y : Appointment) : isSame x y = isSame y x.
Proof.
  unfold isSame, Moment.isSame, Moment.moment.
  rewrite (String.eqb_sym (appointee x)), (String.eqb_sym (initiator x)),
          (Z.eqb_sym (startTime x)).
  now rewrite (andb_comm (Moment.isValid (startTime x))).
Qed.

(** Solves the side conditions on concrete appointments. *)
Ltac on_the_clock :=
  unfold well_formed, valid_span, valid_instant; simpl; lia.

(* ------------------------------------------------------------------ *)
(** ** The overlap predicate *)

(** C1: for well-formed spans [a] (existing) and [b] (candidate) whose
    instants are valid dates, [timesConflict a b] is true exactly when one
    of the four conditions holds: [a.start < b.end < a.end],
    [a.start < b.start < a.end], [a.start = b.start] or [a.end = b.end]; it
    is false when the spans are disjoint or merely adjacent. *)
Theorem timesConflict_four_conditions (a b : Appointment) :
  valid_span a -> valid_span b ->
  well_formed a -> well_formed b ->
  (timesConflict a b = true <->
     startTime a < endTime b < endTime a
     \/ startTime a < startTime b < endTime a
     \/ startTime a = startTime b
     \/ endTime a = endTime b)
  /\ (endTime a <= startTime b -> timesConflict a b = false)
  /\ (endTime b <= startTime a -> timesConflict a b = false).
Proof.
  unfold well_formed. intros Va Vb Ha Hb.
  split; [now apply timesConflict_true_iff|].
  split; intros H; apply timesConflict_false_if; lia.
Qed.

Lemma timesConflict_four_conditions_witness :
  valid_span (appt "U1" "U3" 600 660) /\ valid_span (appt "U1" "U2" 630 690) /\
  well_formed (appt "U1" "U3" 600 660) /\ well_formed (appt "U1" "U2" 630 690) /\
  timesConflict (appt "U1" "U3" 600 660) (appt "U1" "U2" 630 690) = true.
Proof.
  assert (Va : valid_span (appt "U1" "U3" 600 660)) by on_the_clock.
  assert (Vb : valid_span (appt "U1" "U2" 630 690)) by on_the_clock.
  assert (Ha : well_formed (appt "U1" "U3" 600 660)) by on_the_clock.
  assert (Hb : well_formed (appt "U1" "U2" 630 690)) by on_the_clock.
  split; [exact Va | split; [exact Vb | split; [exact Ha | split; [exact Hb|]]]].
  apply (proj1 (timesConflict_four_conditions _ _ Va Vb Ha Hb)).
  right; left; simpl; lia.
Defined.

(** C2: the overlap test is documented as deciding whether two appointments
    overlap, a symmetric relation, but it misses the case where the second
    span strictly contains the first: on [2,3] against [1,4] the two
    argument orders disagree. *)
Theorem timesConflict_asymmetric_on_containment :
  timesConflict (appt "U1" "U2" 2 3) (appt "U1" "U2" 1 4) = false
  /\ timesConflict (appt "U1" "U2" 1 4) (appt "U1" "U2" 2 3) = true
  /\ well_formed (appt "U1" "U2" 2 3) /\ well_formed (appt "U1" "U2" 1 4).
Proof.
  unfold well_formed; simpl. repeat split; lia.
Qed.

(** C6: when the second span strictly contains the first,
    [timesConflict first second] is false; so the creation scanner ignores an
    existing appointment that the candidate strictly contains, and accepts
    the candidate when that is the only entry. *)
Theorem timesConflict_misses_containing_candidate (first second : Appointment) :
  well_formed first -> well_formed second ->
  startTime second < startTime first -> endTime first < endTime second ->
  timesConflict first second = false
  /\ noConflicts_Create second [first] = true
  /\ (forall before after,
        noConflicts_Create second (before ++ first :: after)
        = noConflicts_Create second (before ++ after)).
Proof.
  unfold well_formed. intros Hf Hs Hstart Hend.
  assert (Hno : timesConflict first second = false)
    by (apply timesConflict_false_if; lia).
  split; [exact Hno|]. split.
  - rewrite noConflicts_Create_existsb. simpl. now rewrite Hno.
  - intros before after. rewrite !noConflicts_Create_existsb, !existsb_app.
    simpl. now rewrite Hno.
Qed.

Lemma timesConflict_misses_containing_candidate_witness :
  timesConflict (appt "U1" "U3" 600 660) (appt "U1" "U2" 540 720) = false
  /\ noConflicts_Create (appt "U1" "U2" 540 720) [appt "U1" "U3" 600 660] = true.
Proof.
  assert (H := timesConflict_misses_containing_candidate
                 (appt "U1" "U3" 600 660) (appt "U1" "U2" 540 720)).
  unfold well_formed in H; simpl in H.
  destruct H as (H1 & H2 & _); try lia.
  split; [exact H1 | exact H2].
Defined.

(* ------------------------------------------------------------------ *)
(** ** The scanners *)

(** C7: [noConflicts_Create candidate existing] is true exactly when
    [timesConflict e candidate] is false for every [e] of [existing]; it is
    true on the empty list and does not depend on the order of the list. *)
Theorem noConflicts_Create_iff_no_conflict (candidate : Appointment) :
  (forall existing,
      noConflicts_Create candidate existing = true <->
      forall e, In e existing -> timesConflict e candidate = false)
  /\ noConflicts_Create candidate [] = true
  /\ (forall existing existing',
        Permutation existing existing' ->
        noConflicts_Create candidate existing = noConflicts_Create candidate existing').
Proof.
  assert (Hiff : forall existing,
             noConflicts_Create candidate existing = true <->
             forall e, In e existing -> timesConflict e candidate = false).
  { intros existing. rewrite noConflicts_Create_existsb.
    apply (negb_existsb_true (fun e => timesConflict e candidate)). }
  split; [exact Hiff|]. split; [reflexivity|].
  intros l l' Hperm. apply eq_true_iff_eq. rewrite !Hiff.
  split; intros H e He; apply H.
  - apply Permutation_in with (l := l'); [now apply Permutation_sym | exact He].
  - apply Permutation_in with (l := l); assumption.
Qed.

(** C5: [noConflicts_Modify {original, modified} existing] is true exactly
    when no entry [e] of [existing] with [isSame e original] false conflicts
    with [modified]; every entry that matches [original] is skipped, however
    many there are, also when [original] and [modified] overlap; the record
    [original] itself is such a match when its start is a valid date. *)
Theorem noConflicts_Modify_skips_original (p : Modification) :
  (forall existing,
      noConflicts_Modify p existing = true <->
      forall e, In e existing -> isSame e (original p) = false ->
                timesConflict e (modified p) = false)
  /\ (forall existing,
        noConflicts_Modify p existing =
        noConflicts_Modify p
          (filter (fun e => negb (isSame e (original p))) existing))
  /\ (valid_instant (startTime (original p)) ->
      forall n, noConflicts_Modify p (repeat (original p) n) = true).
Proof.
  split; [|split].
  - intros existing. rewrite noConflicts_Modify_existsb, negb_existsb_true.
    split; intros H e He.
    + intros Hsame. specialize (H e He). now rewrite Hsame in H.
    + destruct (isSame e (original p)) eqn:E; [reflexivity|].
      simpl. now apply H.
  - intros existing. rewrite !noConflicts_Modify_existsb. f_equal.
    induction existing as [|e rest IH]; simpl; [reflexivity|].
    destruct (isSame e (original p)) eqn:E; simpl; [exact IH|].
    now rewrite E, IH.
  - intros Hvalid n. rewrite noConflicts_Modify_existsb.
    apply (negb_existsb_true
             (fun e => negb (isSame e (original p)) && timesConflict e (modified p))).
    intros e He. apply repeat_spec in He. subst e.
    now rewrite isSame_refl.
Qed.

Lemma noConflicts_Modify_skips_original_witness :
  valid_instant (startTime (original moved_half_hour))
  /\ timesConflict (original moved_half_hour) (modified moved_half_hour) = true
  /\ noConflicts_Modify moved_half_hour (repeat (original moved_half_hour) 2) = true.
Proof.
  assert (Hvalid : valid_instant (startTime (original moved_half_hour)))
    by on_the_clock.
  split; [exact Hvalid|]. split; [reflexivity|].
  exact (proj2 (proj2 (noConflicts_Modify_skips_original moved_half_hour)) Hvalid 2%nat).
Defined.

(* ------------------------------------------------------------------ *)
(** ** The identity predicate *)

(** C8: for records whose start instants are valid dates, [isSame x y] is
    true exactly when initiator, appointee and start instant are equal, and
    [isSame x x] is true; for all records, [isSame] is true only on equal
    initiator, appointee and start instant, the end instants play no part,
    instants one millisecond apart are different, and the predicate is
    symmetric. *)
Theorem isSame_exact_identity :
  (forall x y,
      valid_instant (startTime x) -> valid_instant (startTime y) ->
      (isSame x y = true <->
       initiator x = initiator y /\ appointee x = appointee y
       /\ startTime x = startTime y))
  /\ (forall x y,
        isSame x y = true ->
        initiator x = initiator y /\ appointee x = appointee y
        /\ startTime x = startTime y)
  /\ (forall i a s e e' i' a' s' f f',
        isSame (mkAppointment i a s e) (mkAppointment i' a' s' f)
        = isSame (mkAppointment i a s e') (mkAppointment i' a' s' f'))
  /\ (forall i a s e f, isSame (mkAppointment i a s e) (mkAppointment i a (s + 1) f) = false)
  /\ (forall x, valid_instant (startTime x) -> isSame x x = true)
  /\ (forall x y, isSame x y = isSame y x).
Proof.
  split; [exact isSame_true_iff|]. split; [exact isSame_true_only_if|].
  split; [reflexivity|]. split; [|split].
  - intros i a s e f. apply not_true_iff_false. intros H.
    apply isSame_true_only_if in H. simpl in H. lia.
  - exact isSame_refl.
  - exact isSame_sym.
Qed.

Lemma isSame_exact_identity_witness :
  valid_instant (startTime nine_to_ten)
  /\ valid_instant (startTime (appt "U1" "U2" 540 615))
  /\ isSame nine_to_ten nine_to_ten = true
  /\ isSame nine_to_ten (appt "U1" "U2" 540 615) = true.
Proof.
  assert (Hx : valid_instant (startTime nine_to_ten)) by on_the_clock.
  assert (Hy : valid_instant (startTime (appt "U1" "U2" 540 615))) by on_the_clock.
  split; [exact Hx | split; [exact Hy|]]. split.
  - exact (proj1 (proj2 (proj2 (proj2 (proj2 isSame_exact_identity)))) nine_to_ten Hx).
  - apply (proj2 (proj1 isSame_exact_identity nine_to_ten _ Hx Hy)).
    repeat split; reflexivity.
Defined.

(* ------------------------------------------------------------------ *)
(** ** The orchestrator *)

Lemma validate_run {C : Type} (repo : Repository) (c : C) (i a : identity)
    (scan : C -> list Appointment -> bool) (w : world) :
  validate repo c i a scan w =
  match GetAppointment repo i with
  | Fulfilled ri =>
      if null_or_noTimeConflicts scan c ri then
        match GetAppointment repo a with
        | Fulfilled ra =>
            if null_or_noTimeConflicts scan c ra then
              (Fulfilled (mkVerdict true ""), after w [] [i; a])
            else
              (Fulfilled (mkVerdict false appointee_conflict),
               after w ["Error appointment time unavailable for appointee."] [i; a])
        | _ => (Pending, after w [] [i; a])
        end
      else
        (Fulfilled (mkVerdict false initiator_conflict),
         after w ["Error appointment time unavailable for initiator."] [i])
  | Rejected e => (Pending, after w [e] [i])
  | Pending => (Pending, after w [] [i])
  end.
Proof.
  destruct w as [out asked].
  destruct (GetAppointment repo i) as [ri|e|] eqn:Ei;
    [destruct (null_or_noTimeConflicts scan c ri) eqn:Si;
       [destruct (GetAppointment repo a) as [ra|e|] eqn:Ea;
          [destruct (null_or_noTimeConflicts scan c ra) eqn:Sa| |]|]| |];
    cbv [validate new_Promise bind liftIO call_GetAppointment then_ catch_ ret
         fulfill reject console_log after fst snd console fetches];
    rewrite ?Ei; cbv beta iota; rewrite ?Si; cbv beta iota;
    rewrite ?Ea; cbv beta iota; rewrite ?Sa; cbv beta iota;
    rewrite <- ?app_assoc, ?app_nil_r; reflexivity.
Qed.

Lemma validate_creation_run (repo : Repository) (c : Appointment) (i a : identity)
    (w : world) :
  validate_creation repo c i a w =
  (handed_on (fst (validate repo c i a noConflicts_Create w)),
   snd (validate repo c i a noConflicts_Create w)).
Proof.
  unfold validate_creation, new_Promise, bind, liftIO. simpl.
  destruct (validate repo c i a noConflicts_Create w) as [[v|e|] w']; reflexivity.
Qed.

Lemma validate_modification_run (repo : Repository) (m : Modification)
    (i a : identity) (w : world) :
  validate_modification repo m i a w =
  (handed_on (fst (validate repo m i a noConflicts_Modify w)),
   snd (validate repo m i a noConflicts_Modify w)).
Proof.
  unfold validate_modification, new_Promise, bind, liftIO. simpl.
  destruct (validate repo m i a noConflicts_Modify w) as [[v|e|] w']; reflexivity.
Qed.

Lemma validate_fetch_fails_pending {C : Type} (repo : Repository) (c : C)
    (i a : identity) (scan : C -> list Appointment -> bool) (w : world) :
  fetch_fails repo scan c i a -> fst (validate repo c i a scan w) = Pending.
Proof.
  intros [[e He] | (ri & e & Hi & Hscan & Ha)]; rewrite validate_run.
  - now rewrite He.
  - now rewrite Hi, Hscan, Ha.
Qed.

Lemma validate_null_as_empty {C : Type} (repo : Repository) (c : C)
    (party i a : identity) (scan : C -> list Appointment -> bool) (w : world) :
  scan c [] = true ->
  GetAppointment repo party = Fulfilled None ->
  validate repo c i a scan w
  = validate (with_answer repo party empty_record) c i a scan w.
Proof.
  intros Hscan Hnull. rewrite !validate_run. unfold with_answer, empty_record. simpl.
  destruct (String.eqb_spec i party) as [->|_];
    destruct (String.eqb_spec a party) as [->|_];
    rewrite ?Hnull; simpl; rewrite ?Hscan; reflexivity.
Qed.

Lemma validate_reason_matches_success {C : Type} (repo : Repository) (c : C)
    (i a : identity) (scan : C -> list Appointment -> bool) (w : world) (v : Verdict) :
  fst (validate repo c i a scan w) = Fulfilled v -> reason_matches_success v.
Proof.
  rewrite validate_run. unfold reason_matches_success.
  destruct (GetAppointment repo i) as [ri|e|]; simpl; try discriminate.
  destruct (null_or_noTimeConflicts scan c ri); simpl.
  - destruct (GetAppointment repo a) as [ra|e|]; simpl; try discriminate.
    destruct (null_or_noTimeConflicts scan c ra); simpl;
      intros [= <-]; simpl; repeat split; auto; discriminate.
  - intros [= <-]; simpl; repeat split; auto; discriminate.
Qed.

Lemma handed_on_Fulfilled (p : promise Verdict) (v : Verdict) :
  handed_on p = Fulfilled v -> p = Fulfilled v.
Proof. destruct p; simpl; congruence. Qed.

(** C3, as the code has it: when a fetch that the validation performs
    rejects, the promise returned by [validate_creation] and
    [validate_modification] is never settled.  No verdict reaches the caller
    (so the failure never becomes [{success: true}]), and no error either;
    an error of the initiator's fetch is written to the console. *)
Theorem fetch_failure_never_settles (repo : Repository) (i a : identity)
    (w : world) (c : Appointment) (m : Modification) :
  (fetch_fails repo noConflicts_Create c i a ->
     fst (validate_creation repo c i a w) = Pending
     /\ forall v, fst (validate_creation repo c i a w) <> Fulfilled v)
  /\ (fetch_fails repo noConflicts_Modify m i a ->
        fst (validate_modification repo m i a w) = Pending
        /\ forall v, fst (validate_modification repo m i a w) <> Fulfilled v)
  /\ (forall e, GetAppointment repo i = Rejected e ->
        validate_creation repo c i a w = (Pending, after w [e] [i])
        /\ validate_modification repo m i a w = (Pending, after w [e] [i])).
Proof.
  split; [|split].
  - intros H. apply (validate_fetch_fails_pending repo c i a _ w) in H.
    rewrite validate_creation_run, H. simpl. split; [reflexivity | discriminate].
  - intros H. apply (validate_fetch_fails_pending repo m i a _ w) in H.
    rewrite validate_modification_run, H. simpl. split; [reflexivity | discriminate].
  - intros e He.
    rewrite validate_creation_run, validate_modification_run, !validate_run, He.
    split; reflexivity.
Qed.

Lemma fetch_failure_never_settles_witness :
  fetch_fails storage_down noConflicts_Create (appt "U1" "U2" 600 660) "U1" "U2"
  /\ fst (validate_creation storage_down (appt "U1" "U2" 600 660) "U1" "U2" quiet)
     = Pending.
Proof.
  assert (H : fetch_fails storage_down noConflicts_Create
                (appt "U1" "U2" 600 660) "U1" "U2")
    by (left; exists "storage error"; reflexivity).
  split; [exact H|].
  exact (proj1 (proj1 (fetch_failure_never_settles storage_down "U1" "U2" quiet
                         (appt "U1" "U2" 600 660)
                         (mkModification (appt "U1" "U2" 600 660)
                                         (appt "U1" "U2" 630 690))) H)).
Defined.

(** C3, as stated, fails: the fetch for U1 rejects, and neither entry point
    hands an error to its caller. *)
Lemma fetch_failure_is_not_propagated :
  GetAppointment storage_down "U1" = Rejected "storage error"
  /\ ~ propagates_error
         (fst (validate_creation storage_down (appt "U1" "U2" 600 660)
                 "U1" "U2" quiet))
  /\ ~ propagates_error
         (fst (validate_modification storage_down
                 (mkModification (appt "U1" "U2" 600 660) (appt "U1" "U2" 630 690))
                 "U1" "U2" quiet)).
Proof.
  split; [reflexivity|]. split; intros [e He]; vm_compute in He; discriminate.
Qed.

(** C4: when the scanner reports a conflict against the initiator's list,
    [validate] answers with the initiator's reason and the appointee's
    appointments are not even requested; so the reason is the initiator's
    also when the appointee's list conflicts as well. *)
Theorem initiator_conflict_short_circuits {C : Type} (repo : Repository)
    (candidate : C) (i a : identity) (scanner : C -> list Appointment -> bool)
    (ri : AppointmentRecord) (w : world) :
  GetAppointment repo i = Fulfilled (Some ri) ->
  scanner candidate (appointments ri) = false ->
  validate repo candidate i a scanner w
  = (Fulfilled (mkVerdict false
                  "Appointment time conflicts with your existing appointment."),
     after w ["Error appointment time unavailable for initiator."] [i])
  /\ fetches (snd (validate repo candidate i a scanner w)) = fetches w ++ [i].
Proof.
  intros Hi Hscan. rewrite validate_run, Hi. simpl. rewrite Hscan.
  split; reflexivity.
Qed.

Lemma initiator_conflict_short_circuits_witness :
  noConflicts_Create (appt "U1" "U2" 630 690) [appt "U1" "U3" 600 660] = false
  /\ noConflicts_Create (appt "U1" "U2" 630 690) [appt "U4" "U2" 615 675] = false
  /\ validate both_booked (appt "U1" "U2" 630 690) "U1" "U2" noConflicts_Create quiet
     = (Fulfilled (mkVerdict false initiator_conflict),
        mkWorld ["Error appointment time unavailable for initiator."] ["U1"]).
Proof.
  split; [reflexivity|]. split; [reflexivity|].
  exact (proj1 (initiator_conflict_short_circuits both_booked
                  (appt "U1" "U2" 630 690) "U1" "U2" noConflicts_Create
                  (mkRecord [appt "U1" "U3" 600 660]) quiet
                  eq_refl eq_refl)).
Defined.

(** C9: a [null] answer of the repository for a party counts as an empty
    appointment list: both entry points behave as if the repository had
    answered with a record without appointments; when both parties have no
    record the verdict is [{success: true, reason: ""}]. *)
Theorem null_record_is_empty_list (repo : Repository) (i a : identity) (w : world) :
  (forall party c,
      GetAppointment repo party = Fulfilled None ->
      validate_creation repo c i a w
      = validate_creation (with_answer repo party empty_record) c i a w)
  /\ (forall party m,
        GetAppointment repo party = Fulfilled None ->
        validate_modification repo m i a w
        = validate_modification (with_answer repo party empty_record) m i a w)
  /\ (GetAppointment repo i = Fulfilled None ->
      GetAppointment repo a = Fulfilled None ->
      (forall (C : Type) (scanner : C -> list Appointment -> bool) (c : C),
          fst (validate repo c i a scanner w) = Fulfilled (mkVerdict true ""))
      /\ (forall c, fst (validate_creation repo c i a w) = Fulfilled (mkVerdict true ""))
      /\ (forall m, fst (validate_modification repo m i a w)
                    = Fulfilled (mkVerdict true ""))).
Proof.
  split; [|split].
  - intros party c Hnull. rewrite !validate_creation_run.
    now rewrite <- (validate_null_as_empty repo c party i a noConflicts_Create w).
  - intros party m Hnull. rewrite !validate_modification_run.
    now rewrite <- (validate_null_as_empty repo m party i a noConflicts_Modify w).
  - intros Hi Ha.
    assert (Hv : forall (C : Type) (scanner : C -> list Appointment -> bool) (c : C),
               fst (validate repo c i a scanner w) = Fulfilled (mkVerdict true "")).
    { intros C scanner c. now rewrite validate_run, Hi, Ha. }
    split; [exact Hv|]. split.
    + intros c. now rewrite validate_creation_run, Hv.
    + intros m. now rewrite validate_modification_run, Hv.
Qed.

Lemma null_record_is_empty_list_witness :
  GetAppointment nobody_on_record "U1" = Fulfilled None
  /\ GetAppointment nobody_on_record "U2" = Fulfilled None
  /\ fst (validate_creation nobody_on_record (appt "U1" "U2" 600 660) "U1" "U2" quiet)
     = Fulfilled (mkVerdict true "").
Proof.
  split; [reflexivity|]. split; [reflexivity|].
  exact (proj1 (proj2 (proj2 (proj2 (null_record_is_empty_list
                                       nobody_on_record "U1" "U2" quiet))
                         eq_refl eq_refl))
           (appt "U1" "U2" 600 660)).
Defined.

(** C10: every verdict that [validate], [validate_creation] or
    [validate_modification] delivers has an empty reason exactly when it is a
    success, and otherwise one of the two reasons that name the conflicting
    party. *)
Theorem verdict_reason_invariant (repo : Repository) (i a : identity)
    (w : world) (v : Verdict) :
  (forall (C : Type) (scanner : C -> list Appointment -> bool) (c : C),
      fst (validate repo c i a scanner w) = Fulfilled v ->
      reason_matches_success v)
  /\ (forall c, fst (validate_creation repo c i a w) = Fulfilled v ->
                reason_matches_success v)
  /\ (forall m, fst (validate_modification repo m i a w) = Fulfilled v ->
                reason_matches_success v).
Proof.
  split; [|split].
  - intros C scanner c. apply validate_reason_matches_success.
  - intros c. rewrite validate_creation_run. simpl. intros H.
    apply handed_on_Fulfilled in H.
    exact (validate_reason_matches_success _ _ _ _ _ _ _ H).
  - intros m. rewrite validate_modification_run. simpl. intros H.
    apply handed_on_Fulfilled in H.
    exact (validate_reason_matches_success _ _ _ _ _ _ _ H).
Qed.

Lemma verdict_reason_invariant_witness :
  fst (validate_creation both_booked (appt "U3" "U2" 630 690) "U3" "U2" quiet)
  = Fulfilled (mkVerdict false appointee_conflict)
  /\ reason_matches_success (mkVerdict false appointee_conflict).
Proof.
  assert (H : fst (validate_creation both_booked (appt "U3" "U2" 630 690)
                     "U3" "U2" quiet)
              = Fulfilled (mkVerdict false appointee_conflict)) by reflexivity.
  split; [exact H|].
  exact (proj1 (proj2 (verdict_reason_invariant both_booked "U3" "U2" quiet
                         (mkVerdict false appointee_conflict)))
           (appt "U3" "U2" 630 690) H).
Defined.

(* ------------------------------------------------------------------ *)
(** ** More on the overlap predicate and the scanners *)

Lemma timesConflict_overlap_iff (a b : Appointment) :
  valid_span a -> valid_span b ->
  well_formed a -> well_formed b ->
  (timesConflict a b = true <-> overlaps a b /\ ~ strictly_inside a b).
Proof.
  intros Va Vb. unfold well_formed, overlaps, strictly_inside. intros Ha Hb.
  rewrite (timesConflict_true_iff a b Va Vb). lia.
Qed.

Lemma noConflicts_Create_app (c : Appointment) (l1 l2 : list Appointment) :
  noConflicts_Create c (l1 ++ l2) = noConflicts_Create c l1 && noConflicts_Create c l2.
Proof. rewrite !noConflicts_Create_existsb, existsb_app. apply negb_orb. Qed.

Lemma noConflicts_Modify_app (p : Modification) (l1 l2 : list Appointment) :
  noConflicts_Modify p (l1 ++ l2) = noConflicts_Modify p l1 && noConflicts_Modify p l2.
Proof. rewrite !noConflicts_Modify_existsb, existsb_app. apply negb_orb. Qed.

Lemma existsb_filter_andb {A : Type} (keep f : A -> bool) (l : list A) :
  existsb f (filter keep l) = existsb (fun e => keep e && f e) l.
Proof.
  induction l as [|e rest IH]; simpl; [reflexivity|].
  destruct (keep e); simpl; now rewrite IH.
Qed.

(** X1: for well-formed spans of valid dates, [timesConflict a b] is true
    exactly when the spans overlap and [a] does not lie strictly inside [b]:
    strict containment of the first span in the second is the only overlap
    the test misses. *)
Theorem timesConflict_is_overlap_minus_containment (a b : Appointment) :
  valid_span a -> valid_span b ->
  well_formed a -> well_formed b ->
  (timesConflict a b = true <-> overlaps a b /\ ~ strictly_inside a b).
Proof. apply timesConflict_overlap_iff. Qed.

Lemma timesConflict_is_overlap_minus_containment_witness :
  valid_span (appt "U1" "U3" 600 660) /\ valid_span (appt "U1" "U2" 630 690)
  /\ well_formed (appt "U1" "U3" 600 660) /\ well_formed (appt "U1" "U2" 630 690)
  /\ (overlaps (appt "U1" "U3" 600 660) (appt "U1" "U2" 630 690)
      /\ ~ strictly_inside (appt "U1" "U3" 600 660) (appt "U1" "U2" 630 690)
      -> timesConflict (appt "U1" "U3" 600 660) (appt "U1" "U2" 630 690) = true).
Proof.
  assert (Va : valid_span (appt "U1" "U3" 600 660)) by on_the_clock.
  assert (Vb : valid_span (appt "U1" "U2" 630 690)) by on_the_clock.
  assert (Ha : well_formed (appt "U1" "U3" 600 660)) by on_the_clock.
  assert (Hb : well_formed (appt "U1" "U2" 630 690)) by on_the_clock.
  split; [exact Va | split; [exact Vb | split; [exact Ha | split; [exact Hb|]]]].
  exact (proj2 (timesConflict_is_overlap_minus_containment _ _ Va Vb Ha Hb)).
Defined.

(** X2: for well-formed spans of valid dates, asking in both orders decides
    overlap exactly: [timesConflict a b || timesConflict b a] is true iff the
    two spans overlap. *)
Theorem timesConflict_either_order_is_overlap (a b : Appointment) :
  valid_span a -> valid_span b ->
  well_formed a -> well_formed b ->
  (timesConflict a b || timesConflict b a = true <-> overlaps a b).
Proof.
  intros Va Vb Ha Hb. rewrite orb_true_iff.
  rewrite (timesConflict_overlap_iff a b Va Vb Ha Hb),
          (timesConflict_overlap_iff b a Vb Va Hb Ha).
  unfold well_formed, overlaps, strictly_inside in *. lia.
Qed.

Lemma timesConflict_either_order_is_overlap_witness :
  valid_span (appt "U1" "U2" 2 3) /\ valid_span (appt "U1" "U2" 1 4)
  /\ well_formed (appt "U1" "U2" 2 3) /\ well_formed (appt "U1" "U2" 1 4)
  /\ (timesConflict (appt "U1" "U2" 2 3) (appt "U1" "U2" 1 4)
      || timesConflict (appt "U1" "U2" 1 4) (appt "U1" "U2" 2 3) = true
      <-> overlaps (appt "U1" "U2" 2 3) (appt "U1" "U2" 1 4)).
Proof.
  assert (Va : valid_span (appt "U1" "U2" 2 3)) by on_the_clock.
  assert (Vb : valid_span (appt "U1" "U2" 1 4)) by on_the_clock.
  assert (Ha : well_formed (appt "U1" "U2" 2 3)) by on_the_clock.
  assert (Hb : well_formed (appt "U1" "U2" 1 4)) by on_the_clock.
  split; [exact Va | split; [exact Vb | split; [exact Ha | split; [exact Hb|]]]].
  exact (timesConflict_either_order_is_overlap _ _ Va Vb Ha Hb).
Defined.

(** X3: for well-formed spans of valid dates, the two argument orders of
    [timesConflict] give different answers exactly when one span lies
    strictly inside the other; in every other case the test is symmetric. *)
Theorem timesConflict_orders_differ_iff_containment (a b : Appointment) :
  valid_span a -> valid_span b ->
  well_formed a -> well_formed b ->
  (timesConflict a b = timesConflict b a <->
   ~ (strictly_inside a b \/ strictly_inside b a)).
Proof.
  intros Va Vb Ha Hb.
  pose proof (timesConflict_overlap_iff a b Va Vb Ha Hb) as Hab.
  pose proof (timesConflict_overlap_iff b a Vb Va Hb Ha) as Hba.
  clear Va Vb.
  split.
  - intros Heq. rewrite Heq in Hab.
    assert (Hboth : overlaps a b /\ ~ strictly_inside a b <->
                    overlaps b a /\ ~ strictly_inside b a)
      by (rewrite <- Hab, <- Hba; tauto).
    unfold well_formed, overlaps, strictly_inside in *. lia.
  - intros Hnone. apply eq_true_iff_eq. rewrite Hab, Hba.
    unfold well_formed, overlaps, strictly_inside in *. lia.
Qed.

Lemma timesConflict_orders_differ_iff_containment_witness :
  valid_span (appt "U1" "U3" 600 660) /\ valid_span (appt "U1" "U2" 630 690)
  /\ well_formed (appt "U1" "U3" 600 660) /\ well_formed (appt "U1" "U2" 630 690)
  /\ timesConflict (appt "U1" "U3" 600 660) (appt "U1" "U2" 630 690)
     = timesConflict (appt "U1" "U2" 630 690) (appt "U1" "U3" 600 660).
Proof.
  assert (Va : valid_span (appt "U1" "U3" 600 660)) by on_the_clock.
  assert (Vb : valid_span (appt "U1" "U2" 630 690)) by on_the_clock.
  assert (Ha : well_formed (appt "U1" "U3" 600 660)) by on_the_clock.
  assert (Hb : well_formed (appt "U1" "U2" 630 690)) by on_the_clock.
  split; [exact Va | split; [exact Vb | split; [exact Ha | split; [exact Hb|]]]].
  apply (proj2 (timesConflict_orders_differ_iff_containment _ _ Va Vb Ha Hb)).
  unfold strictly_inside; simpl; lia.
Defined.

(** X4: with well-formed spans of valid dates throughout,
    [noConflicts_Create] accepts a candidate exactly when every existing
    appointment either does not overlap the candidate or lies strictly
    inside it. *)
Theorem noConflicts_Create_accepts_disjoint_or_inside (candidate : Appointment)
    (existing : list Appointment) :
  valid_span candidate -> well_formed candidate ->
  (forall e, In e existing -> valid_span e /\ well_formed e) ->
  (noConflicts_Create candidate existing = true <->
   forall e, In e existing -> ~ overlaps e candidate \/ strictly_inside e candidate).
Proof.
  intros Vc Hc Hall. rewrite noConflicts_Create_existsb.
  rewrite (negb_existsb_true (fun e => timesConflict e candidate)).
  split; intros H e He; specialize (H e He); destruct (Hall e He) as [Ve We];
    pose proof (timesConflict_overlap_iff e candidate Ve Vc We Hc) as Hiff;
    clear Hall Ve Vc.
  - destruct (timesConflict e candidate); [discriminate|].
    unfold well_formed, overlaps, strictly_inside in *. lia.
  - apply not_true_iff_false. rewrite Hiff. tauto.
Qed.

Lemma noConflicts_Create_accepts_disjoint_or_inside_witness :
  valid_span (appt "U1" "U2" 660 720) /\ well_formed (appt "U1" "U2" 660 720)
  /\ (noConflicts_Create (appt "U1" "U2" 660 720) [appt "U1" "U3" 600 660] = true <->
      forall e, In e [appt "U1" "U3" 600 660] ->
                ~ overlaps e (appt "U1" "U2" 660 720)
                \/ strictly_inside e (appt "U1" "U2" 660 720)).
Proof.
  assert (Vc : valid_span (appt "U1" "U2" 660 720)) by on_the_clock.
  assert (Hc : well_formed (appt "U1" "U2" 660 720)) by on_the_clock.
  split; [exact Vc | split; [exact Hc|]].
  apply (noConflicts_Create_accepts_disjoint_or_inside _ _ Vc Hc).
  intros e [<-|[]]. split; on_the_clock.
Defined.

(** X5: for a candidate whose instants are valid dates, an existing
    appointment that starts or ends at the same instant as the candidate
    always makes [noConflicts_Create] reject it, well-formed spans or not;
    in particular such a candidate is rejected when it is already on the
    list. *)
Theorem noConflicts_Create_rejects_shared_boundary (candidate e : Appointment)
    (existing : list Appointment) :
  valid_span candidate ->
  In e existing ->
  startTime e = startTime candidate \/ endTime e = endTime candidate ->
  noConflicts_Create candidate existing = false.
Proof.
  intros [Vs Ve] He Hsame. rewrite noConflicts_Create_existsb. apply negb_false_iff.
  apply existsb_exists. exists e. split; [exact He|].
  apply isValid_true_iff in Vs, Ve.
  unfold timesConflict, Moment.isSame, Moment.moment. cbv zeta.
  destruct Hsame as [-> | ->].
  - rewrite Vs, Z.eqb_refl. simpl. now rewrite orb_true_r.
  - rewrite Ve, Z.eqb_refl. simpl. apply orb_true_r.
Qed.

Lemma noConflicts_Create_rejects_shared_boundary_witness :
  valid_span nine_to_ten
  /\ In nine_to_ten [appt "U1" "U3" 600 660; nine_to_ten]
  /\ noConflicts_Create nine_to_ten [appt "U1" "U3" 600 660; nine_to_ten] = false.
Proof.
  assert (V : valid_span nine_to_ten) by on_the_clock.
  assert (H : In nine_to_ten [appt "U1" "U3" 600 660; nine_to_ten])
    by (right; left; reflexivity).
  split; [exact V | split; [exact H|]].
  exact (noConflicts_Create_rejects_shared_boundary nine_to_ten nine_to_ten _ V H
           (or_introl eq_refl)).
Defined.

(** X6: the modification scanner is the creation scanner for [modified] run
    on the list without the entries that match [original]; so whatever the
    creation scanner accepts for [modified] the modification scanner accepts
    too, and the two agree on a list that holds no match of [original]. *)
Theorem noConflicts_Modify_is_Create_without_original (p : Modification)
    (existing : list Appointment) :
  noConflicts_Modify p existing
  = noConflicts_Create (modified p)
      (filter (fun e => negb (isSame e (original p))) existing)
  /\ (noConflicts_Create (modified p) existing = true ->
      noConflicts_Modify p existing = true)
  /\ ((forall e, In e existing -> isSame e (original p) = false) ->
      noConflicts_Modify p existing = noConflicts_Create (modified p) existing).
Proof.
  rewrite noConflicts_Modify_existsb, !noConflicts_Create_existsb, existsb_filter_andb.
  split; [reflexivity|]. split.
  - rewrite !negb_true_iff. intros Hnone.
    destruct (existsb (fun e => negb (isSame e (original p))
                                && timesConflict e (modified p)) existing) eqn:E;
      [|reflexivity].
    apply existsb_exists in E. destruct E as (e & He & Hboth).
    apply andb_true_iff in Hboth.
    assert (existsb (fun e => timesConflict e (modified p)) existing = true)
      by (apply existsb_exists; exists e; tauto).
    congruence.
  - intros Hno. f_equal. induction existing as [|e rest IH]; simpl; [reflexivity|].
    rewrite (Hno e (or_introl eq_refl)). simpl. f_equal.
    apply IH. intros e' He'. apply Hno. now right.
Qed.

(** X7: both scanners accept a concatenation of two lists exactly when they
    accept each list: the verdict on a party's list can be computed in
    pieces. *)
Theorem scanners_distribute_over_append (candidate : Appointment)
    (p : Modification) (l1 l2 : list Appointment) :
  noConflicts_Create candidate (l1 ++ l2)
  = noConflicts_Create candidate l1 && noConflicts_Create candidate l2
  /\ noConflicts_Modify p (l1 ++ l2)
     = noConflicts_Modify p l1 && noConflicts_Modify p l2.
Proof. split; [apply noConflicts_Create_app | apply noConflicts_Modify_app]. Qed.

(** X8: the scanners read nothing but the identity triple of [original] and
    the time span of the candidate: replacing [original] by a record that
    [isSame] accepts, and [modified] by a record with the same span, leaves
    [noConflicts_Modify] unchanged; the same holds for the candidate of
    [noConflicts_Create]. *)
Theorem scanners_read_identity_and_span_only (o o' m m' : Appointment)
    (existing : list Appointment) :
  isSame o o' = true -> same_span m m' ->
  noConflicts_Modify (mkModification o m) existing
  = noConflicts_Modify (mkModification o' m') existing
  /\ noConflicts_Create m existing = noConflicts_Create m' existing.
Proof.
  intros Hsame [Hs He]. apply isSame_true_only_if in Hsame.
  destruct Hsame as (Hi & Ha & Ht).
  assert (Htc : forall e, timesConflict e m = timesConflict e m').
  { intros e. unfold timesConflict. now rewrite Hs, He. }
  assert (Hid : forall e, isSame e o = isSame e o').
  { intros e. unfold isSame. now rewrite Hi, Ha, Ht. }
  rewrite !noConflicts_Modify_existsb, !noConflicts_Create_existsb. simpl.
  split; f_equal; induction existing as [|e rest IH]; simpl;
    [reflexivity | now rewrite Hid, Htc, IH | reflexivity | now rewrite Htc, IH].
Qed.

Lemma scanners_read_identity_and_span_only_witness :
  isSame nine_to_ten (appt "U1" "U2" 540 615) = true
  /\ same_span (appt "U1" "U2" 570 630) (appt "U5" "U6" 570 630)
  /\ noConflicts_Create (appt "U1" "U2" 570 630) [nine_to_ten]
     = noConflicts_Create (appt "U5" "U6" 570 630) [nine_to_ten].
Proof.
  assert (H1 : isSame nine_to_ten (appt "U1" "U2" 540 615) = true) by reflexivity.
  assert (H2 : same_span (appt "U1" "U2" 570 630) (appt "U5" "U6" 570 630))
    by (split; reflexivity).
  split; [exact H1 | split; [exact H2|]].
  exact (proj2 (scanners_read_identity_and_span_only _ _ _ _ [nine_to_ten] H1 H2)).
Defined.

(* ------------------------------------------------------------------ *)
(** ** More on the orchestrator *)

Lemma validate_not_rejected {C : Type} (repo : Repository) (c : C)
    (i a : identity) (scan : C -> list Appointment -> bool) (w : world) (e : error) :
  fst (validate repo c i a scan w) <> Rejected e.
Proof.
  rewrite validate_run.
  destruct (GetAppointment repo i) as [ri|e'|]; simpl; try discriminate.
  destruct (null_or_noTimeConflicts scan c ri); simpl; try discriminate.
  destruct (GetAppointment repo a) as [ra|e'|]; simpl; try discriminate.
  destruct (null_or_noTimeConflicts scan c ra); discriminate.
Qed.

Lemma handed_on_unless_rejected (p : promise Verdict) :
  (forall e, p <> Rejected e) -> handed_on p = p.
Proof. destruct p as [v|e|]; simpl; intros H; [reflexivity | now destruct (H e) | reflexivity]. Qed.

Lemma validate_creation_is_validate (repo : Repository) (c : Appointment)
    (i a : identity) (w : world) :
  validate_creation repo c i a w = validate repo c i a noConflicts_Create w.
Proof.
  rewrite validate_creation_run, handed_on_unless_rejected.
  - now destruct (validate repo c i a noConflicts_Create w).
  - intros e. apply validate_not_rejected.
Qed.

Lemma validate_modification_is_validate (repo : Repository) (m : Modification)
    (i a : identity) (w : world) :
  validate_modification repo m i a w = validate repo m i a noConflicts_Modify w.
Proof.
  rewrite validate_modification_run, handed_on_unless_rejected.
  - now destruct (validate repo m i a noConflicts_Modify w).
  - intros e. apply validate_not_rejected.
Qed.

(** X9: the promise that [validate], [validate_creation] or
    [validate_modification] returns is never rejected, whatever the
    repository answers and whatever the scanner decides: [reject] is never
    called. *)
Theorem validation_never_rejects (repo : Repository) (i a : identity) (w : world) :
  (forall (C : Type) (scanner : C -> list Appointment -> bool) (c : C) e,
      fst (validate repo c i a scanner w) <> Rejected e)
  /\ (forall c e, fst (validate_creation repo c i a w) <> Rejected e)
  /\ (forall m e, fst (validate_modification repo m i a w) <> Rejected e).
Proof.
  split; [|split].
  - intros C scanner c e. apply validate_not_rejected.
  - intros c e. rewrite validate_creation_is_validate. apply validate_not_rejected.
  - intros m e. rewrite validate_modification_is_validate. apply validate_not_rejected.
Qed.

(** X10: the two entry points add nothing to [validate]: the promise they
    return ends in the same state, after the same console lines and the same
    repository requests, as [validate] with the matching scanner. *)
Theorem entry_points_run_validate (repo : Repository) (i a : identity) (w : world)
    (c : Appointment) (m : Modification) :
  validate_creation repo c i a w = validate repo c i a noConflicts_Create w
  /\ validate_modification repo m i a w = validate repo m i a noConflicts_Modify w.
Proof.
  split; [apply validate_creation_is_validate | apply validate_modification_is_validate].
Qed.

(** X11: [validate] delivers a successful verdict exactly when both fetches
    are fulfilled and each answer is [null] or passes the scanner. *)
Theorem validate_succeeds_iff {C : Type} (repo : Repository) (c : C)
    (i a : identity) (scanner : C -> list Appointment -> bool) (w : world) :
  (exists v, fst (validate repo c i a scanner w) = Fulfilled v /\ success v = true)
  <->
  (exists ri ra,
      GetAppointment repo i = Fulfilled ri
      /\ GetAppointment repo a = Fulfilled ra
      /\ null_or_noTimeConflicts scanner c ri = true
      /\ null_or_noTimeConflicts scanner c ra = true).
Proof.
  rewrite validate_run. split.
  - intros (v & Hv & Hok).
    destruct (GetAppointment repo i) as [ri|e|]; simpl in Hv; try discriminate.
    destruct (null_or_noTimeConflicts scanner c ri) eqn:Si; simpl in Hv.
    + destruct (GetAppointment repo a) as [ra|e|]; simpl in Hv; try discriminate.
      destruct (null_or_noTimeConflicts scanner c ra) eqn:Sa; simpl in Hv.
      * exists ri, ra. auto.
      * injection Hv as <-. discriminate.
    + injection Hv as <-. discriminate.
  - intros (ri & ra & -> & -> & -> & ->). simpl.
    exists (mkVerdict true ""). auto.
Qed.

(** X12: when the initiator's answer is [null] or passes the scanner and the
    scanner reports a conflict against the appointee's list, [validate]
    answers with the appointee's reason, after requesting the initiator and
    then the appointee and writing one line to the console. *)
Theorem appointee_conflict_reported {C : Type} (repo : Repository) (c : C)
    (i a : identity) (scanner : C -> list Appointment -> bool)
    (ri : option AppointmentRecord) (ra : AppointmentRecord) (w : world) :
  GetAppointment repo i = Fulfilled ri ->
  null_or_noTimeConflicts scanner c ri = true ->
  GetAppointment repo a = Fulfilled (Some ra) ->
  scanner c (appointments ra) = false ->
  validate repo c i a scanner w
  = (Fulfilled (mkVerdict false
       "Appointment time conflicts with the appointee's existing appointment."),
     mkWorld (console w ++ ["Error appointment time unavailable for appointee."])
             (fetches w ++ [i; a])).
Proof.
  intros Hi Si Ha Sa. rewrite validate_run, Hi, Si, Ha. simpl. now rewrite Sa.
Qed.

Lemma appointee_conflict_reported_witness :
  GetAppointment both_booked "U3" = Fulfilled None
  /\ noConflicts_Create (appt "U3" "U2" 630 690) [appt "U4" "U2" 615 675] = false
  /\ validate both_booked (appt "U3" "U2" 630 690) "U3" "U2" noConflicts_Create quiet
     = (Fulfilled (mkVerdict false appointee_conflict),
        mkWorld ["Error appointment time unavailable for appointee."] ["U3"; "U2"]).
Proof.
  split; [reflexivity|]. split; [reflexivity|].
  exact (appointee_conflict_reported both_booked (appt "U3" "U2" 630 690)
           "U3" "U2" noConflicts_Create None
           (mkRecord [appt "U4" "U2" 615 675]) quiet
           eq_refl eq_refl eq_refl eq_refl).
Defined.

(** X13: the caller of [validate] receives a verdict exactly when the
    initiator's fetch is fulfilled and either the scanner reports a conflict
    on it or the appointee's fetch is fulfilled too; in every other case the
    promise stays pending. *)
Theorem validate_settles_iff {C : Type} (repo : Repository) (c : C)
    (i a : identity) (scanner : C -> list Appointment -> bool) (w : world) :
  ((exists v, fst (validate repo c i a scanner w) = Fulfilled v)
   <->
   (exists ri,
       GetAppointment repo i = Fulfilled ri
       /\ (null_or_noTimeConflicts scanner c ri = false
           \/ exists ra, GetAppointment repo a = Fulfilled ra)))
  /\ ((exists v, fst (validate repo c i a scanner w) = Fulfilled v)
      \/ fst (validate repo c i a scanner w) = Pending).
Proof.
  rewrite validate_run.
  destruct (GetAppointment repo i) as [ri|e|]; simpl.
  - destruct (null_or_noTimeConflicts scanner c ri) eqn:Si; simpl.
    + destruct (GetAppointment repo a) as [ra|e|]; simpl.
      * split.
        -- split; [intros _; exists ri; split; [reflexivity | right; now exists ra]|].
           intros _. destruct (null_or_noTimeConflicts scanner c ra);
             eexists; reflexivity.
        -- left. destruct (null_or_noTimeConflicts scanner c ra);
             eexists; reflexivity.
      * split; [|now right].
        split; [intros [v Hv]; discriminate|].
        intros (ri' & [= <-] & [Hno | [ra Hra]]); [congruence | discriminate].
      * split; [|now right].
        split; [intros [v Hv]; discriminate|].
        intros (ri' & [= <-] & [Hno | [ra Hra]]); [congruence | discriminate].
    + split; [|left; eexists; reflexivity].
      split; [intros _; exists ri; auto | intros _; eexists; reflexivity].
  - split; [|now right].
    split; [intros [v Hv]; discriminate | intros (ri & Hri & _); discriminate].
  - split; [|now right].
    split; [intros [v Hv]; discriminate | intros (ri & Hri & _); discriminate].
Qed.

(** X14: a run of [validate] requests the initiator's appointments first and
    the appointee's at most once after it, exactly when the initiator's
    answer is [null] or passes the scanner; it writes at most one line to the
    console, and none when the verdict is a success. *)
Theorem validate_requests_and_lines {C : Type} (repo : Repository) (c : C)
    (i a : identity) (scanner : C -> list Appointment -> bool) (w : world) :
  exists lines parties,
    snd (validate repo c i a scanner w)
    = mkWorld (console w ++ lines) (fetches w ++ parties)
    /\ (List.length lines <= 1)%nat
    /\ (parties = [i] \/ parties = [i; a])
    /\ (parties = [i; a] <->
        exists ri, GetAppointment repo i = Fulfilled ri
                   /\ null_or_noTimeConflicts scanner c ri = true)
    /\ (forall v, fst (validate repo c i a scanner w) = Fulfilled v ->
                  success v = true -> lines = []).
Proof.
  rewrite validate_run. unfold after.
  destruct (GetAppointment repo i) as [ri|e|] eqn:Ei; simpl.
  - destruct (null_or_noTimeConflicts scanner c ri) eqn:Si; simpl.
    + assert (Hreq : [i; a] = [i; a] <->
                     exists ri0, Fulfilled ri = Fulfilled ri0
                                 /\ null_or_noTimeConflicts scanner c ri0 = true)
        by (split; [intros _; exists ri; auto | reflexivity]).
      destruct (GetAppointment repo a) as [ra|e|]; simpl;
        [destruct (null_or_noTimeConflicts scanner c ra); simpl| |].
      * exists [], [i; a]. repeat split; auto; apply Hreq; auto.
      * exists ["Error appointment time unavailable for appointee."], [i; a].
        repeat split; auto; try (apply Hreq; auto).
        intros v [= <-]. discriminate.
      * exists [], [i; a]. repeat split; auto; apply Hreq; auto.
      * exists [], [i; a]. repeat split; auto; apply Hreq; auto.
    + exists ["Error appointment time unavailable for initiator."], [i].
      repeat split; auto.
      * discriminate.
      * intros (ri' & [= <-] & Hpass). congruence.
      * intros v [= <-]. discriminate.
  - exists [e], [i]. repeat split; auto; try discriminate.
    intros (ri & Hri & _). discriminate.
  - exists [], [i]. repeat split; auto; try discriminate.
    intros (ri & Hri & _). discriminate.
Qed.

(* ------------------------------------------------------------------ *)
(** ** The treatment plan repository *)

Section TreatmentQueries.
Context {Treatment : Type}.
Implicit Types (db : string -> Collection Treatment) (docs : list (UserDoc Treatment)).

Lemma collect_treatments docs :
  forall (seen rest : list (UserDoc Treatment)) (collected : list (list Treatment)),
    docs = seen ++ rest ->
    for_count (List.length rest) (List.length seen) (push_treatment docs) collected
    = collected ++ map (fun doc => treatment (accountType doc)) rest.
Proof.
  intros seen rest. revert seen.
  induction rest as [|doc rest IH]; intros seen collected Hdocs; simpl.
  - now rewrite app_nil_r.
  - unfold push_treatment at 2. rewrite Hdocs at 2.
    rewrite nth_error_app2, Nat.sub_diag by apply Nat.le_refl. simpl.
    replace (Datatypes.S (List.length seen)) with (List.length (seen ++ [doc]))
      by (rewrite length_app; simpl; apply Nat.add_1_r).
    rewrite IH by (now rewrite <- app_assoc).
    now rewrite <- app_assoc.
Qed.

Lemma GetTreatmentsDiagnosis_run db (MPCode Diagnosis : string) (w : world) :
  GetTreatmentsDiagnosis db MPCode Diagnosis w =
  match find_toArray (db "Users") (ByRoleCodeDiagnosis "patient" MPCode Diagnosis) with
  | (Some e, _) =>
      (Rejected e, mkWorld (console w ++ ["Failed to get query"]) (fetches w))
  | (None, docs) =>
      (Fulfilled (mkDiagnosisTreatments
                    (map (fun doc => treatment (accountType doc)) docs)),
       mkWorld (console w ++ ["Successfully got query"]) (fetches w))
  end.
Proof.
  unfold GetTreatmentsDiagnosis, new_Promise.
  destruct (find_toArray _ _) as [[e|] docs]; [reflexivity|].
  pose proof (collect_treatments docs [] docs [] eq_refl) as Hloop.
  simpl in Hloop.
  cbv [bind liftIO console_log fulfill fst snd console fetches].
  now rewrite Hloop.
Qed.

Lemma GetPatientTreatment_run db (patient : string) (w : world) :
  GetPatientTreatment db patient w =
  match findOne (db "Users") (ByUsername patient) with
  | (Some e, _) =>
      (Rejected e, mkWorld (console w ++ ["Failed to get query"]) (fetches w))
  | (None, result) =>
      (Fulfilled (option_map (fun r => mkTreatmentList (treatment (accountType r))) result),
       mkWorld (console w ++ ["Successfully got query"]) (fetches w))
  end.
Proof.
  unfold GetPatientTreatment, new_Promise.
  destruct (findOne _ _) as [[e|] [r|]]; reflexivity.
Qed.

(** X15: when the driver answers the query for the patients of a medical
    code and diagnosis with [docs] and no error, [GetTreatmentsDiagnosis]
    fulfils with one treatment array per document, in the order of [docs]
    and not flattened (an empty answer gives an empty array, not [null]);
    when the driver reports an error the promise is rejected with it. *)
Theorem GetTreatmentsDiagnosis_collects_in_order db (MPCode Diagnosis : string)
    (w : world) (err : option error) docs :
  find_toArray (db "Users") (ByRoleCodeDiagnosis "patient" MPCode Diagnosis)
  = (err, docs) ->
  match err with
  | Some e => fst (GetTreatmentsDiagnosis db MPCode Diagnosis w) = Rejected e
  | None =>
      exists results,
        fst (GetTreatmentsDiagnosis db MPCode Diagnosis w) = Fulfilled results
        /\ List.length (Treatments results) = List.length docs
        /\ forall n, nth_error (Treatments results) n
                     = option_map (fun doc => treatment (accountType doc))
                                  (nth_error docs n)
  end.
Proof.
  intros Hanswer. rewrite GetTreatmentsDiagnosis_run, Hanswer.
  destruct err as [e|]; [reflexivity|].
  eexists. split; [reflexivity|]. simpl. split.
  - apply length_map.
  - intros n. apply nth_error_map.
Qed.

(** X16: [GetPatientTreatment] always settles once the driver has answered:
    it rejects exactly when the driver reports an error (and then with that
    error, also when a document came along), fulfils with [null] exactly when
    there is neither error nor document, and otherwise fulfils with the
    treatments of the document; it writes one line to the console. *)
Theorem GetPatientTreatment_outcomes db (patient : string) (w : world)
    (err : option error) (result : option (UserDoc Treatment)) :
  findOne (db "Users") (ByUsername patient) = (err, result) ->
  (forall e, fst (GetPatientTreatment db patient w) = Rejected e <-> err = Some e)
  /\ (fst (GetPatientTreatment db patient w) = Fulfilled None <->
      err = None /\ result = None)
  /\ (forall plans,
        fst (GetPatientTreatment db patient w) = Fulfilled (Some plans) <->
        err = None /\ exists doc, result = Some doc
                                  /\ plans = mkTreatmentList (treatment (accountType doc)))
  /\ fst (GetPatientTreatment db patient w) <> Pending
  /\ exists line, snd (GetPatientTreatment db patient w)
                  = mkWorld (console w ++ [line]) (fetches w).
Proof.
  intros Hanswer. rewrite GetPatientTreatment_run, Hanswer.
  split; [|split; [|split; [|split]]].
  - intros e'. destruct err as [e|]; simpl; split; congruence.
  - destruct err as [e|]; [|destruct result as [doc|]]; simpl; split;
      try discriminate; try (intros [H1 H2]; discriminate); auto.
  - intros plans. destruct err as [e|]; [|destruct result as [doc|]]; simpl; split;
      try discriminate;
      try (intros (H1 & doc' & H2 & H3); congruence).
    intros [= <-]. split; [reflexivity|]. exists doc. auto.
  - destruct err as [e|]; simpl; discriminate.
  - destruct err as [e|]; simpl; eexists; reflexivity.
Qed.

(** X17: the two queries agree: when a patient's document is among the
    documents the driver returns for a diagnosis, the treatments that
    [GetPatientTreatment] delivers for the patient are one of the arrays that
    [GetTreatmentsDiagnosis] delivers. *)
Theorem patient_treatments_among_diagnosis_treatments db
    (patient MPCode Diagnosis : string) (w w' : world)
    (doc : UserDoc Treatment) docs :
  findOne (db "Users") (ByUsername patient) = (None, Some doc) ->
  find_toArray (db "Users") (ByRoleCodeDiagnosis "patient" MPCode Diagnosis)
  = (None, docs) ->
  In doc docs ->
  exists plans results,
    fst (GetPatientTreatment db patient w) = Fulfilled (Some plans)
    /\ fst (GetTreatmentsDiagnosis db MPCode Diagnosis w') = Fulfilled results
    /\ In (treatments plans) (Treatments results).
Proof.
  intros Hone Hall Hin.
  rewrite GetPatientTreatment_run, GetTreatmentsDiagnosis_run, Hone, Hall.
  do 2 eexists. split; [reflexivity|]. split; [reflexivity|].
  simpl. now apply (in_map (fun d => treatment (accountType d))).
Qed.

End TreatmentQueries.

Lemma GetTreatmentsDiagnosis_collects_in_order_witness :
  find_toArray (two_patients "Users") (ByRoleCodeDiagnosis "patient" "MP1" "asthma")
  = (None, [mkUserDoc (mkAccountType ["rest"; "inhaler"]); mkUserDoc (mkAccountType [])])
  /\ exists results,
       fst (GetTreatmentsDiagnosis two_patients "MP1" "asthma" quiet) = Fulfilled results
       /\ List.length (Treatments results) = 2%nat.
Proof.
  split; [reflexivity|].
  destruct (GetTreatmentsDiagnosis_collects_in_order two_patients "MP1" "asthma" quiet
              None _ eq_refl) as (results & Hres & Hlen & _).
  exists results. split; [exact Hres | exact Hlen].
Defined.

Lemma GetPatientTreatment_outcomes_witness :
  findOne (users_unreachable "Users") (ByUsername "ann") = (Some "connection lost", None)
  /\ fst (GetPatientTreatment users_unreachable "ann" quiet) = Rejected "connection lost".
Proof.
  split; [reflexivity|].
  exact (proj2 (proj1 (GetPatientTreatment_outcomes users_unreachable "ann" quiet
                         _ _ eq_refl) "connection lost") eq_refl).
Defined.

Lemma patient_treatments_among_diagnosis_treatments_witness :
  In (mkUserDoc (mkAccountType ["rest"; "inhaler"]))
     [mkUserDoc (mkAccountType ["rest"; "inhaler"]); mkUserDoc (mkAccountType [])]
  /\ exists plans results,
       fst (GetPatientTreatment two_patients "ann" quiet) = Fulfilled (Some plans)
       /\ fst (GetTreatmentsDiagnosis two_patients "MP1" "asthma" quiet) = Fulfilled results
       /\ In (treatments plans) (Treatments results).
Proof.
  assert (Hin : In (mkUserDoc (mkAccountType ["rest"; "inhaler"]))
                   [mkUserDoc (mkAccountType ["rest"; "inhaler"]);
                    mkUserDoc (mkAccountType (Treatment := string) [])])
    by (left; reflexivity).
  split; [exact Hin|].
  exact (patient_treatments_among_diagnosis_treatments two_patients
           "ann" "MP1" "asthma" quiet quiet _ _ eq_refl eq_refl Hin).
Defined.

(* ------------------------------------------------------------------ *)
(** ** The entry points end to end *)

(** X18: when both parties have a record, [validate_creation] delivers the
    successful verdict exactly when the candidate conflicts with no
    appointment of either list (in the sense of [timesConflict]); otherwise it
    delivers a failure verdict. *)
Theorem validate_creation_accepts_iff (repo : Repository) (c : Appointment)
    (i a : identity) (w : world) (mine theirs : list Appointment) :
  GetAppointment repo i = Fulfilled (Some (mkRecord mine)) ->
  GetAppointment repo a = Fulfilled (Some (mkRecord theirs)) ->
  (fst (validate_creation repo c i a w) = Fulfilled (mkVerdict true "") <->
   forall e, In e (mine ++ theirs) -> timesConflict e c = false)
  /\ exists v, fst (validate_creation repo c i a w) = Fulfilled v.
Proof.
  intros Hi Ha. rewrite validate_creation_is_validate, validate_run, Hi, Ha. simpl.
  assert (Hall : forall l, noConflicts_Create c l = true <->
                           forall e, In e l -> timesConflict e c = false).
  { intros l. rewrite noConflicts_Create_existsb.
    apply (negb_existsb_true (fun e => timesConflict e c)). }
  destruct (noConflicts_Create c mine) eqn:Smine;
    [destruct (noConflicts_Create c theirs) eqn:Stheirs|]; simpl;
    (split; [|eexists; reflexivity]).
  - split; [|reflexivity]. intros _ e He. apply in_app_or in He.
    destruct He as [He|He]; [now apply (proj1 (Hall mine)) | now apply (proj1 (Hall theirs))].
  - split; [discriminate|]. intros Hnone.
    assert (noConflicts_Create c theirs = true)
      by (apply Hall; intros e He; apply Hnone, in_or_app; now right).
    congruence.
  - split; [discriminate|]. intros Hnone.
    assert (noConflicts_Create c mine = true)
      by (apply Hall; intros e He; apply Hnone, in_or_app; now left).
    congruence.
Qed.

Lemma validate_creation_accepts_iff_witness :
  GetAppointment both_booked "U1" = Fulfilled (Some (mkRecord [appt "U1" "U3" 600 660]))
  /\ GetAppointment both_booked "U2" = Fulfilled (Some (mkRecord [appt "U4" "U2" 615 675]))
  /\ fst (validate_creation both_booked (appt "U1" "U2" 675 700) "U1" "U2" quiet)
     = Fulfilled (mkVerdict true "").
Proof.
  split; [reflexivity|]. split; [reflexivity|].
  apply (proj2 (proj1 (validate_creation_accepts_iff both_booked
                         (appt "U1" "U2" 675 700) "U1" "U2" quiet _ _
                         eq_refl eq_refl))).
  intros e [<-|[<-|[]]]; reflexivity.
Defined.

(** X19: when every appointment on record, for either party, matches
    [original], [validate_modification] accepts the change whatever the
    modified times are, provided both fetches are fulfilled: moving one's
    only appointment never conflicts. *)
Theorem modification_of_only_appointment_accepted (repo : Repository)
    (m : Modification) (i a : identity) (w : world)
    (ri ra : option AppointmentRecord) :
  GetAppointment repo i = Fulfilled ri ->
  GetAppointment repo a = Fulfilled ra ->
  (forall r e, ri = Some r \/ ra = Some r -> In e (appointments r) ->
               isSame e (original m) = true) ->
  validate_modification repo m i a w
  = (Fulfilled (mkVerdict true ""), mkWorld (console w) (fetches w ++ [i; a])).
Proof.
  intros Hi Ha Honly.
  assert (Hpass : forall r, ri = Some r \/ ra = Some r ->
                            noConflicts_Modify m (appointments r) = true).
  { intros r Hr. rewrite noConflicts_Modify_existsb.
    apply (negb_existsb_true
             (fun e => negb (isSame e (original m)) && timesConflict e (modified m))).
    intros e He. now rewrite (Honly r e Hr He). }
  rewrite validate_modification_is_validate, validate_run, Hi, Ha. unfold after.
  destruct ri as [r1|]; destruct ra as [r2|]; simpl;
    rewrite ?(Hpass r1) by auto; rewrite ?(Hpass r2) by auto;
    now rewrite app_nil_r.
Qed.

Lemma modification_of_only_appointment_accepted_witness :
  timesConflict nine_to_ten (modified moved_half_hour) = true
  /\ validate_modification only_nine_to_ten moved_half_hour "U1" "U2" quiet
     = (Fulfilled (mkVerdict true ""), mkWorld [] ["U1"; "U2"]).
Proof.
  split; [reflexivity|].
  apply (modification_of_only_appointment_accepted only_nine_to_ten moved_half_hour
           "U1" "U2" quiet (Some (mkRecord [nine_to_ten])) (Some (mkRecord [nine_to_ten]))
           eq_refl eq_refl).
  intros r e [[= <-]|[= <-]] [<-|[]]; reflexivity.
Defined.

(** X20: whether [validate] succeeds does not depend on which of the two
    parties is passed as initiator and which as appointee; only the reason of
    a failure and the requests made depend on it. *)
Theorem validate_success_ignores_roles {C : Type} (repo : Repository) (c : C)
    (i a : identity) (scanner : C -> list Appointment -> bool) (w w' : world) :
  fst (validate repo c i a scanner w) = Fulfilled (mkVerdict true "")
  <-> fst (validate repo c a i scanner w') = Fulfilled (mkVerdict true "").
Proof.
  rewrite !validate_run.
  destruct (GetAppointment repo i) as [ri|e|], (GetAppointment repo a) as [ra|e'|];
    simpl;
    try destruct (null_or_noTimeConflicts scanner c ri);
    try destruct (null_or_noTimeConflicts scanner c ra);
    simpl; split; intros H; try discriminate H; reflexivity.
Qed.
